(** * The FGSM notebook: the attack function and the evaluation loop

    A shallow embedding of [adversarial.ipynb]: the function [fgsm_attack]
    (code cell 12) and the evaluation loop [test] (code cell 14).

    Tensors are flat lists of rationals: the shape of a tensor plays no role
    in the two functions, and the rationals stand for the floating-point
    values (only comparisons, and the arithmetic of the written contract,
    are ever performed on them).  The network, its autograd and the
    reduction [max] belong to PyTorch; they enter as an interface. *)

From Stdlib Require Import List ZArith QArith Qabs Bool Lia.
From Stdlib Require Import Permutation ZifyNat.
Import ListNotations.

Open Scope Q_scope.

(** ** Data *)

Definition Tensor := list Q.

(** The row of per-class log-probabilities returned by [model(data)]
    (the loader has [batch_size=1]). *)
Definition Output := list Q.

(** A saved example: [(init_pred.item(), final_pred.item(), adv_ex)]. *)
Definition Example := (Z * Z * Tensor)%type.

(** One batch of the loader: [(data, target)]. *)
Definition Batch := (Tensor * Z)%type.

(** ** Code cell 12: the attack *)

Definition fgsm_attack (image : Tensor) (epsilon : Q) (data_grad : Tensor)
  : Tensor :=
  let perturbed_image := image in (* replace me! *)
  perturbed_image.

(** ** The written contract of the perturbation function

    These definitions follow the words of the specification (section 4.1),
    not the notebook; they are what [fgsm_attack] is compared with. *)
Module Contract.

(** Modelled from the spec: the notebook never calls a sign function
    ([torch.sign] would be the one); "[elementwise_sign(v)] yields -1, 0,
    or +1 per element based on the sign of [v]". *)
Definition sign (v : Q) : Q :=
  match v ?= 0 with
  | Lt => -1
  | Eq => 0
  | Gt => 1
  end.

Definition elementwise_sign (v : Tensor) : Tensor := map sign v.

(** Modelled from the spec: the notebook has no clamp; "clamped
    element-wise to the valid input range (e.g., [0,1])". *)
Definition clamp1 (x : Q) : Q :=
  match x ?= 0 with
  | Lt => 0
  | _ => match x ?= 1 with
         | Gt => 1
         | _ => x
         end
  end.

Definition clamp (t : Tensor) : Tensor := map clamp1 t.

(** [perturbed = sample + epsilon * elementwise_sign(gradient)], clamped. *)
Definition perturb (sample : Tensor) (epsilon : Q) (gradient : Tensor)
  : Tensor :=
  clamp (map (fun '(x, s) => x + epsilon * s)
             (combine sample (elementwise_sign gradient))).

(** A sample of the data model: every element within [0,1]. *)
Definition valid_sample (sample : Tensor) : Prop :=
  Forall (fun x => 0 <= x /\ x <= 1) sample.

(** Equality of tensors, element by element, as rational numbers. *)
Definition tensor_eq (a b : Tensor) : Prop := Forall2 Qeq a b.

(** Raising the step moved an element further: [x2] is strictly further
    from the original [s] than [x1] is, on the side the sign of the
    gradient element [g] points to. *)
Definition moves_further (s x1 x2 g : Q) : Prop :=
  Qabs (x1 - s) < Qabs (x2 - s) /\ 0 < (x2 - s) * sign g.

End Contract.

(** ** The PyTorch interface used by the loop

    [forward] is [model(data)] in evaluation mode (the dropout layers are
    off, so it is a function of the parameters and the input); [max_index]
    is [output.max(1, keepdim=True)[1].item()]; [input_grad] is [data.grad]
    after [loss.backward()] for [loss = F.nll_loss(model(data), target)];
    [param_grad] is what the same backward pass adds to the [.grad] of the
    parameters. *)
Class Torch := {
  Params : Type;
  Grads : Type;
  forward : Params -> Tensor -> Output;
  max_index : Output -> Z;
  input_grad : Params -> Tensor -> Z -> Tensor;
  param_grad : Params -> Tensor -> Z -> Grads;
  grad_zero : Grads;
  grad_add : Grads -> Grads -> Grads
}.

(** The module object: its parameters and their accumulated gradients. *)
Record Model `{Torch} := {
  weights : Params;
  grads : Grads
}.

(** What the loop asks of PyTorch and of the attack, in order. *)
Inductive Call :=
| CallForward (x : Tensor)
| CallNllLoss (target : Z)
| CallZeroGrad
| CallBackward
| CallAttack (image : Tensor) (epsilon : Q) (data_grad : Tensor).

(** The state the loop of [test] runs in. *)
Record State `{Torch} := {
  model : Model;
  correct : nat;
  adv_examples : list Example;
  calls : list Call
}.

(** The loss tensor remembers what it was computed from. *)
Record Loss := { loss_data : Tensor; loss_target : Z }.

Section Loop.
Context `{Torch}.

(** *** A state monad for the loop body *)

Definition M (A : Type) : Type := State -> A * State.

Definition ret {A} (a : A) : M A := fun st => (a, st).

Definition bind {A B} (m : M A) (k : A -> M B) : M B :=
  fun st => let (a, st') := m st in k a st'.

Notation "x <- m ;; k" := (bind m (fun x => k))
  (at level 61, m at next level, right associativity).
Notation "m ;;; k" := (bind m (fun _ => k))
  (at level 61, right associativity).

Definition log (c : Call) : M unit :=
  fun st => (tt, {| model := model st; correct := correct st;
                    adv_examples := adv_examples st;
                    calls := calls st ++ [c] |}).

Definition update_model (f : Model -> Model) : M unit :=
  fun st => (tt, {| model := f (model st); correct := correct st;
                    adv_examples := adv_examples st;
                    calls := calls st |}).

(** [model(x)] *)
Definition call_model (x : Tensor) : M Output :=
  log (CallForward x) ;;;
  fun st => (forward (weights (model st)) x, st).

(** [F.nll_loss(output, target)], for [output = model(data)] *)
Definition nll_loss (data : Tensor) (target : Z) : M Loss :=
  log (CallNllLoss target) ;;;
  ret {| loss_data := data; loss_target := target |}.

(** [model.zero_grad()] *)
Definition zero_grad : M unit :=
  log CallZeroGrad ;;;
  update_model (fun m => {| weights := weights m; grads := grad_zero |}).

(** [loss.backward()], followed by the read of [data.grad.data] *)
Definition backward (loss : Loss) : M Tensor :=
  log CallBackward ;;;
  update_model (fun m =>
    {| weights := weights m;
       grads := grad_add (grads m)
                  (param_grad (weights m) (loss_data loss)
                              (loss_target loss)) |}) ;;;
  fun st => (input_grad (weights (model st)) (loss_data loss)
                        (loss_target loss), st).

(** [fgsm_attack(data, epsilon, data_grad)] *)
Definition call_attack (data : Tensor) (epsilon : Q) (data_grad : Tensor)
  : M Tensor :=
  log (CallAttack data epsilon data_grad) ;;;
  ret (fgsm_attack data epsilon data_grad).

(** [correct += 1] *)
Definition incr_correct : M unit :=
  fun st => (tt, {| model := model st; correct := S (correct st);
                    adv_examples := adv_examples st;
                    calls := calls st |}).

(** [len(adv_examples)] *)
Definition len_adv_examples : M nat :=
  fun st => (length (adv_examples st), st).

(** [adv_examples.append(e)] *)
Definition append_example (e : Example) : M unit :=
  fun st => (tt, {| model := model st; correct := correct st;
                    adv_examples := adv_examples st ++ [e];
                    calls := calls st |}).

(** *** Code cell 14: the body of the [for] loop *)

Definition test_body (epsilon : Q) (batch : Batch) : M unit :=
  let '(data, target) := batch in
  output <- call_model data ;;
  let init_pred := max_index output in
  if negb (init_pred =? target)%Z then
    ret tt (* continue *)
  else
    loss <- nll_loss data target ;;
    zero_grad ;;;
    data_grad <- backward loss ;;
    perturbed_data <- call_attack data epsilon data_grad ;;
    output <- call_model perturbed_data ;;
    let final_pred := max_index output in
    if (final_pred =? target)%Z then
      incr_correct ;;;
      n <- len_adv_examples ;;
      if Qeq_bool epsilon 0 && (n <? 5)%nat then
        append_example (init_pred, final_pred, perturbed_data)
      else ret tt
    else
      n <- len_adv_examples ;;
      if (n <? 5)%nat then
        append_example (init_pred, final_pred, perturbed_data)
      else ret tt.

(** The loop over the loader. *)
Fixpoint for_each (epsilon : Q) (test_loader : list Batch) : M unit :=
  match test_loader with
  | [] => ret tt
  | batch :: rest => test_body epsilon batch ;;; for_each epsilon rest
  end.

(** [correct/float(len(test_loader))]: Python raises [ZeroDivisionError]
    on an empty loader. *)
Definition final_acc (correct : nat) (len : nat) : option Q :=
  match len with
  | O => None
  | S _ => Some (inject_Z (Z.of_nat correct) / inject_Z (Z.of_nat len))
  end.

Definition initial (m : Model) : State :=
  {| model := m; correct := 0; adv_examples := []; calls := [] |}.

(** [test(model, device, test_loader, epsilon)]: the returned pair
    [(final_acc, adv_examples)], or [None] for the exception, together
    with the state the loop ended in. *)
Definition test (m : Model) (test_loader : list Batch) (epsilon : Q)
  : option (Q * list Example) * State :=
  let st := snd (for_each epsilon test_loader (initial m)) in
  (match final_acc (correct st) (length test_loader) with
   | None => None
   | Some acc => Some (acc, adv_examples st)
   end, st).

End Loop.

(** ** What the loop does with one batch, read off the parameters

    The functions below describe a batch [(data, target)] under fixed
    parameters [w]; the theorems relate the state of the loop to them. *)
Section Readings.
Context `{Torch}.
Variable w : Params.
Variable epsilon : Q.

(** [init_pred.item()] *)
Definition init_pred (b : Batch) : Z := max_index (forward w (fst b)).

(** [perturbed_data] *)
Definition perturbed (b : Batch) : Tensor :=
  fgsm_attack (fst b) epsilon (input_grad w (fst b) (snd b)).

(** [final_pred.item()] *)
Definition final_pred (b : Batch) : Z :=
  max_index (forward w (perturbed b)).

(** The initial prediction is right: the pair is attacked. *)
Definition attacked (b : Batch) : bool := (init_pred b =? snd b)%Z.

(** The perturbed prediction still matches the label. *)
Definition survives (b : Batch) : bool := (final_pred b =? snd b)%Z.

(** The pairs counted in [correct]. *)
Definition counted (b : Batch) : bool := attacked b && survives b.

(** The pairs the loop is willing to save a triple for. *)
Definition recordable (b : Batch) : bool :=
  attacked b && (negb (survives b) || Qeq_bool epsilon 0).

(** The triple saved for a pair. *)
Definition triple (b : Batch) : Example :=
  (init_pred b, final_pred b, perturbed b).

(** The collection as the specification words it: the first five
    attacked pairs, whether the attack succeeded or not. *)
Definition collected_regardless (test_loader : list Batch) : list Example :=
  firstn 5 (map triple (filter attacked test_loader)).

(** The collection the loop performs. *)
Definition collected (test_loader : list Batch) : list Example :=
  firstn 5 (map triple (filter recordable test_loader)).

End Readings.

(** ** A one-pixel, two-class network for the concrete runs

    The parameter is a threshold [w]: class 0 below it, class 1 above. *)
Module Toy.

Definition toy_forward (w : Q) (x : Tensor) : Output :=
  match x with
  | [] => [0; 0]
  | p :: _ => [w - p; p - w]
  end.

Definition toy_max_index (o : Output) : Z :=
  match o with
  | a :: b :: _ => if Qle_bool b a then 0%Z else 1%Z
  | _ => 0%Z
  end.

Definition toy_input_grad (w : Q) (x : Tensor) (target : Z) : Tensor :=
  map (fun _ => if (target =? 0)%Z then 1 else -1) x.

Definition toy_param_grad (w : Q) (x : Tensor) (target : Z) : Q :=
  if (target =? 0)%Z then -1 else 1.

#[local] Instance toy : Torch := {|
  Params := Q;
  Grads := Q;
  forward := toy_forward;
  max_index := toy_max_index;
  input_grad := toy_input_grad;
  param_grad := toy_param_grad;
  grad_zero := 0;
  grad_add := Qplus
|}.

Definition net : @Model toy := @Build_Model toy 0.5 0.

(** Two pairs the network gets right and one it gets wrong. *)
Definition loader : list Batch :=
  [([0.2], 0%Z); ([0.9], 0%Z); ([0.7], 1%Z)].

End Toy.

(** ** The calls one batch gives rise to

    Under fixed parameters [w]: a misclassified pair costs one forward
    pass; an attacked pair the whole sequence of the loop body. *)
Section Traces.
Context `{Torch}.
Variable w : Params.
Variable epsilon : Q.

Definition batch_calls (b : Batch) : list Call :=
  if attacked w b then
    [CallForward (fst b); CallNllLoss (snd b); CallZeroGrad; CallBackward;
     CallAttack (fst b) epsilon (input_grad w (fst b) (snd b));
     CallForward (perturbed w epsilon b)]
  else [CallForward (fst b)].

(** The gradient buffers after one batch: rewritten from zero by an
    attacked pair, left alone by a misclassified one. *)
Definition batch_grads (g : Grads) (b : Batch) : Grads :=
  if attacked w b then grad_add grad_zero (param_grad w (fst b) (snd b))
  else g.

End Traces.

Definition is_forward (c : Call) : bool :=
  match c with CallForward _ => true | _ => false end.

Definition is_backward (c : Call) : bool :=
  match c with CallBackward => true | _ => false end.

Definition is_attack (c : Call) : bool :=
  match c with CallAttack _ _ _ => true | _ => false end.

(** ** Code cell 18: the grid of examples

    The cell is a script over the globals [epsilons] and [examples]; the
    calls of [matplotlib.pyplot] are recorded in order.  Of their own
    behaviour only the argument check of [subplot] is followed, the one
    call whose arguments the cell computes.  [Ylabel] and [Title] carry
    the values their strings are formatted from. *)
Inductive Plt :=
| Figure
| Subplot (nrows ncols index : nat)
| Xticks
| Yticks
| Ylabel (eps : Q)
| Title (orig adv : Z)
| Imshow (ex : Tensor)
| TightLayout
| PltShow.

Inductive PyError := IndexError | ValueError.

(** [plt.subplot(nrows, ncols, index)] wants a grid of at least one row
    and one column and an index from 1 to [nrows * ncols]; it raises
    [ValueError] otherwise. *)
Definition subplot_ok (nrows ncols index : nat) : bool :=
  (1 <=? nrows)%nat && (1 <=? ncols)%nat
  && (1 <=? index)%nat && (index <=? nrows * ncols)%nat.

(** The counter [cnt] and the calls made so far. *)
Record Fig := { cnt : nat; drawn : list Plt }.

(** The inner loop [for j in range(len(examples[i]))], at position [j] of
    the row, [row] being what is left of [examples[i]]. *)
Fixpoint plot_row (nrows : nat) (examples : list (list Example)) (eps : Q)
         (row : list Example) (j : nat) (fig : Fig) : Fig * option PyError :=
  match row with
  | [] => (fig, None)
  | (orig, adv, ex) :: rest =>
      let cnt' := S (cnt fig) in
      match examples with
      | [] => ({| cnt := cnt'; drawn := drawn fig |}, Some IndexError)
      | row0 :: _ =>
          if subplot_ok nrows (length row0) cnt' then
            plot_row nrows examples eps rest (S j)
              {| cnt := cnt';
                 drawn := drawn fig
                          ++ [Subplot nrows (length row0) cnt'; Xticks; Yticks]
                          ++ (if (j =? 0)%nat then [Ylabel eps] else [])
                          ++ [Title orig adv; Imshow ex] |}
          else ({| cnt := cnt'; drawn := drawn fig |}, Some ValueError)
      end
  end.

(** The outer loop [for i in range(len(epsilons))], at index [i],
    [epsilons] being what is left of the list. *)
Fixpoint plot_rows (nrows : nat) (examples : list (list Example))
         (epsilons : list Q) (i : nat) (fig : Fig) : Fig * option PyError :=
  match epsilons with
  | [] => (fig, None)
  | eps :: rest =>
      match nth_error examples i with
      | None => (fig, Some IndexError)
      | Some row =>
          match plot_row nrows examples eps row 0 fig with
          | (fig', None) => plot_rows nrows examples rest (S i) fig'
          | raised => raised
          end
      end
  end.

Definition plot_examples (epsilons : list Q) (examples : list (list Example))
  : Fig * option PyError :=
  let fig := {| cnt := 0; drawn := [Figure] |} in
  match plot_rows (length epsilons) examples epsilons 0 fig with
  | (fig', None) =>
      ({| cnt := cnt fig'; drawn := drawn fig' ++ [TightLayout; PltShow] |}, None)
  | raised => raised
  end.

(** The arguments of the [subplot] calls of a trace, in order. *)
Definition subplots (l : list Plt) : list (nat * nat * nat) :=
  flat_map (fun c => match c with
                     | Subplot r c k => [(r, c, k)]
                     | _ => []
                     end) l.

(** The [ylabel] calls of a trace, each with the index of the subplot that
    is current when it is made ([cur] before the first [subplot]). *)
Fixpoint labels (cur : nat) (l : list Plt) : list (nat * Q) :=
  match l with
  | [] => []
  | Subplot _ _ k :: rest => labels k rest
  | Ylabel eps :: rest => (cur, eps) :: labels cur rest
  | _ :: rest => labels cur rest
  end.

(** The index of the subplot that is current after a trace. *)
Fixpoint current (cur : nat) (l : list Plt) : nat :=
  match l with
  | [] => cur
  | Subplot _ _ k :: rest => current k rest
  | _ :: rest => current cur rest
  end.

(** Where the [ylabel] calls fall: the label of an epsilon goes on the
    first cell of its row of examples, numbered after all the cells before
    it, and an epsilon with no example gets no label. *)
Fixpoint label_slots (start : nat) (epsilons : list Q)
         (rows : list (list Example)) : list (nat * Q) :=
  match epsilons, rows with
  | eps :: epsilons', row :: rows' =>
      match row with
      | [] => []
      | _ :: _ => [(S start, eps)]
      end ++ label_slots (start + length row) epsilons' rows'
  | _, _ => []
  end.

(** Example rows for the concrete runs of the cell: two examples for the
    first epsilon, one for the second; and two for each. *)
Module ToyGrid.

Definition epsilons : list Q := [0; 0.05].

Definition ragged : list (list Example) :=
  [[(0%Z, 0%Z, [0.2]); (1%Z, 1%Z, [0.7])]; [(0%Z, 1%Z, [0.25])]].

Definition full : list (list Example) :=
  [[(0%Z, 0%Z, [0.2]); (1%Z, 1%Z, [0.7])];
   [(0%Z, 1%Z, [0.25]); (1%Z, 0%Z, [0.65])]].

End ToyGrid.

(** ** Code cell 10: the shapes through [Net.forward]

    Only the shapes are followed, for a batched input [(N, C, H, W)]; the
    rules are those of the PyTorch layers with the defaults the notebook
    leaves in place (stride 1 and no padding for [Conv2d], stride equal to
    the kernel and floor mode for [max_pool2d]).  [None] is the
    [RuntimeError] PyTorch raises on a shape it cannot take.  [relu],
    [Dropout2d], [dropout] and [log_softmax] keep the shape. *)
Module Net.

Record Shape4 := { batch : nat; channels : nat; height : nat; width : nat }.
Record Shape2 := { rows : nat; cols : nat }.

Definition Conv2d (in_channels out_channels kernel_size : nat) (x : Shape4)
  : option Shape4 :=
  if (channels x =? in_channels)%nat
     && (kernel_size <=? height x)%nat && (kernel_size <=? width x)%nat
  then Some {| batch := batch x; channels := out_channels;
               height := height x - kernel_size + 1;
               width := width x - kernel_size + 1 |}
  else None.

Definition max_pool2d (x : Shape4) (kernel_size : nat) : option Shape4 :=
  if (kernel_size <=? height x)%nat && (kernel_size <=? width x)%nat
  then Some {| batch := batch x; channels := channels x;
               height := height x / kernel_size;
               width := width x / kernel_size |}
  else None.

(** [x.view(-1, n)] *)
Definition view (x : Shape4) (n : nat) : option Shape2 :=
  let numel := (batch x * channels x * height x * width x)%nat in
  if (n =? 0)%nat then None
  else if (numel mod n =? 0)%nat
       then Some {| rows := numel / n; cols := n |}
       else None.

Definition Linear (in_features out_features : nat) (x : Shape2)
  : option Shape2 :=
  if (cols x =? in_features)%nat
  then Some {| rows := rows x; cols := out_features |}
  else None.

(** [__init__] *)
Definition conv1 := Conv2d 1 10 5.
Definition conv2 := Conv2d 10 20 5.
Definition fc1 := Linear 320 50.
Definition fc2 := Linear 50 10.

Definition and_then {A B} (o : option A) (k : A -> option B) : option B :=
  match o with
  | Some a => k a
  | None => None
  end.

Notation "x <- o ;; k" := (and_then o (fun x => k))
  (at level 61, o at next level, right associativity).

Definition forward (x : Shape4) : option Shape2 :=
  x <- conv1 x ;;
  x <- max_pool2d x 2 ;;
  x <- conv2 x ;;
  x <- max_pool2d x 2 ;;
  x <- view x 320 ;;
  x <- fc1 x ;;
  x <- fc2 x ;;
  Some x.

(** The side of a feature map after the two convolution and pooling
    stages. *)
Definition pooled (n : nat) : nat := ((n - 4) / 2 - 4) / 2.

End Net.

(** * Theorems *)

Example toy_run_eps0 :
  fst (test Toy.net Toy.loader 0)
  = Some (inject_Z 2 / inject_Z 3,
          [(0%Z, 0%Z, [0.2]); (1%Z, 1%Z, [0.7])]).
Proof. reflexivity. Qed.

Example toy_run_eps01 :
  fst (test Toy.net Toy.loader 0.1) = Some (inject_Z 2 / inject_Z 3, []).
Proof. reflexivity. Qed.

Example toy_run_calls :
  calls (snd (test Toy.net [([0.9], 0%Z); ([0.7], 1%Z)] 0.1))
  = [CallForward [0.9];
     CallForward [0.7]; CallNllLoss 1; CallZeroGrad; CallBackward;
     CallAttack [0.7] 0.1 [-1]; CallForward [0.7]].
Proof. reflexivity. Qed.

Example toy_run_grads :
  model (snd (test Toy.net Toy.loader 0.1))
  = @Build_Model Toy.toy 0.5 (0 + 1).
Proof. reflexivity. Qed.

(** Runs the monadic operations of the loop body on a state, leaving the
    tests of the body in place. *)
Ltac run_body :=
  cbv beta iota zeta delta
    [test_body bind ret log update_model call_model nll_loss zero_grad
     backward call_attack incr_correct len_adv_examples append_example];
  cbn [fst snd model correct adv_examples calls weights grads
       loss_data loss_target].

(** Closes the conjunctions left by a case analysis of the loop body. *)
Ltac close_step :=
  cbn [fst snd model correct adv_examples calls weights grads andb orb negb];
  rewrite ?app_nil_r; repeat split; first [ reflexivity | lia ].

Section LoopFacts.
Context `{Torch}.

(** One turn of the loop, on the three components the results depend on. *)
Lemma test_body_step (epsilon : Q) (b : Batch) (st : State) :
  let w := weights (model st) in
  let st' := snd (test_body epsilon b st) in
  weights (model st') = w
  /\ correct st' = (correct st + if counted w epsilon b then 1 else 0)%nat
  /\ adv_examples st'
     = adv_examples st
       ++ (if recordable w epsilon b
              && (length (adv_examples st) <? 5)%nat
           then [triple w epsilon b] else []).
Proof.
  destruct b as [data target], st as [[w g] c ex cl].
  unfold counted, recordable, attacked, survives, triple, final_pred,
    init_pred, perturbed.
  cbn [fst snd model weights correct adv_examples]. cbv zeta.
  run_body.
  destruct (max_index (forward w data) =? target)%Z eqn:Hi;
    cbn [negb]; [ | close_step ].
  run_body.
  destruct (max_index (forward w _) =? target)%Z eqn:Hf; run_body.
  - destruct (Qeq_bool epsilon 0); cbn [andb orb negb];
      [ destruct (length ex <? 5)%nat | ]; close_step.
  - destruct (length ex <? 5)%nat; close_step.
Qed.

Lemma for_each_cons (epsilon : Q) (b : Batch) (rest : list Batch)
      (st : State) :
  for_each epsilon (b :: rest) st
  = for_each epsilon rest (snd (test_body epsilon b st)).
Proof.
  cbn [for_each]. unfold bind at 1.
  destruct (test_body epsilon b st) as [u st1]. reflexivity.
Qed.

(** The whole loop, started in any state. *)
Lemma for_each_run (epsilon : Q) (test_loader : list Batch) :
  forall st : State,
    let w := weights (model st) in
    let st' := snd (for_each epsilon test_loader st) in
    weights (model st') = w
    /\ correct st'
       = (correct st + length (filter (counted w epsilon) test_loader))%nat
    /\ adv_examples st'
       = adv_examples st
         ++ firstn (5 - length (adv_examples st))
              (map (triple w epsilon)
                   (filter (recordable w epsilon) test_loader)).
Proof.
  induction test_loader as [ | b rest IH]; intros st w st'.
  - subst st'. cbn. rewrite firstn_nil, app_nil_r.
    repeat split; lia.
  - subst st'. rewrite for_each_cons.
    destruct (test_body_step epsilon b st) as (Hw & Hc & He).
    fold w in Hw, Hc, He.
    specialize (IH (snd (test_body epsilon b st))).
    cbv zeta in IH. rewrite Hw in IH.
    destruct IH as (IHw & IHc & IHe).
    split; [ exact IHw | split ].
    + rewrite IHc, Hc. cbn [filter].
      destruct (counted w epsilon b); cbn [length]; lia.
    + rewrite IHe, He. cbn [filter].
      destruct (recordable w epsilon b); cbn [andb map].
      * destruct (length (adv_examples st) <? 5)%nat eqn:Hlen.
        -- apply Nat.ltb_lt in Hlen.
           rewrite length_app. cbn [length].
           replace (5 - length (adv_examples st))%nat
             with (S (5 - (length (adv_examples st) + 1)))%nat by lia.
           cbn [firstn]. rewrite <- app_assoc. reflexivity.
        -- apply Nat.ltb_ge in Hlen. rewrite app_nil_r.
           replace (5 - length (adv_examples st))%nat with 0%nat by lia.
           reflexivity.
      * rewrite app_nil_r. reflexivity.
Qed.

(** The loop as run by [test], from the initial state. *)
Lemma test_run (m : Model) (test_loader : list Batch) (epsilon : Q) :
  let st := snd (test m test_loader epsilon) in
  weights (model st) = weights m
  /\ correct st = length (filter (counted (weights m) epsilon) test_loader)
  /\ adv_examples st = collected (weights m) epsilon test_loader.
Proof.
  unfold test. cbn [snd].
  destruct (for_each_run epsilon test_loader (initial m)) as (Hw & Hc & He).
  cbn [initial model correct adv_examples length app] in Hw, Hc, He.
  repeat split; assumption.
Qed.

Lemma in_firstn {A} (n : nat) (l : list A) (x : A) :
  In x (firstn n l) -> In x l.
Proof.
  intro Hin. rewrite <- (firstn_skipn n l).
  apply in_or_app. left. exact Hin.
Qed.

(** With the body of [fgsm_attack] as it stands, the re-classification
    repeats the initial prediction. *)
Lemma attacked_survives (w : Params) (epsilon : Q) (b : Batch) :
  attacked w b = true -> survives w epsilon b = true.
Proof.
  unfold attacked, survives, final_pred, init_pred, perturbed, fgsm_attack.
  cbv zeta. trivial.
Qed.


(** C2: the accuracy returned by [test] on a non-empty loader is the
    number of pairs that are attacked (initial prediction right) and whose
    perturbed prediction still matches the label, divided by the number of
    all pairs of the loader: a pair with a wrong initial prediction is
    left out of the numerator and counted in the denominator. *)
Theorem test_accuracy_is_ratio
        (m : Model) (test_loader : list Batch) (epsilon : Q) :
  test_loader <> [] ->
  option_map fst (fst (test m test_loader epsilon))
  = Some (inject_Z (Z.of_nat (length (filter (counted (weights m) epsilon)
                                             test_loader)))
          / inject_Z (Z.of_nat (length test_loader))).
Proof.
  intro Hne.
  destruct (test_run m test_loader epsilon) as (_ & Hc & _).
  unfold test in *. cbn [fst snd] in *. rewrite Hc.
  destruct test_loader as [ | b rest]; [ contradiction | ].
  reflexivity.
Qed.

(** C3, as the code has it: the triples held at the end are the first
    five, in loader order, of the triples of the attacked pairs whose
    perturbed prediction differs from the label and, when epsilon equals
    0 only, of those whose perturbed prediction still matches it; never
    more than five are held. *)
Theorem test_collects_recordable
        (m : Model) (test_loader : list Batch) (epsilon : Q) :
  adv_examples (snd (test m test_loader epsilon))
  = firstn 5 (map (triple (weights m) epsilon)
                  (filter (recordable (weights m) epsilon) test_loader))
  /\ (length (adv_examples (snd (test m test_loader epsilon))) <= 5)%nat.
Proof.
  destruct (test_run m test_loader epsilon) as (_ & _ & He).
  rewrite He. unfold collected. split; [ reflexivity | ].
  apply firstn_le_length.
Qed.

(** C4: on a pair whose initial prediction differs from the label the
    loop body does one forward pass and nothing else: no loss, no
    [zero_grad], no backward pass, no call of the attack, no second
    forward pass, and the model, the counter and the saved examples are
    as before. *)
Theorem test_body_skips_misclassified
        (epsilon : Q) (data : Tensor) (target : Z) (st : State) :
  max_index (forward (weights (model st)) data) <> target ->
  test_body epsilon (data, target) st
  = (tt, {| model := model st;
            correct := correct st;
            adv_examples := adv_examples st;
            calls := calls st ++ [CallForward data] |}).
Proof.
  intro Hwrong. apply Z.eqb_neq in Hwrong.
  destruct st as [[w g] c ex cl].
  cbn [model weights] in Hwrong.
  run_body. rewrite Hwrong. reflexivity.
Qed.

(** C8: running [test] leaves the parameters of the model as they were;
    only the gradient buffers are written. *)
Theorem test_keeps_parameters
        (m : Model) (test_loader : list Batch) (epsilon : Q) :
  weights (model (snd (test m test_loader epsilon))) = weights m.
Proof.
  destruct (test_run m test_loader epsilon) as (Hw & _ & _). exact Hw.
Qed.

(** C10: every triple held at the end comes from a pair of the loader
    that was attacked; for an epsilon other than 0 its perturbed
    prediction differs from the label, and a triple whose perturbed
    prediction matches the label is held only when epsilon equals 0. *)
Theorem test_saves_successes_unless_zero
        (m : Model) (test_loader : list Batch) (epsilon : Q) (e : Example) :
  In e (adv_examples (snd (test m test_loader epsilon))) ->
  exists b : Batch,
    In b test_loader
    /\ e = triple (weights m) epsilon b
    /\ init_pred (weights m) b = snd b
    /\ (~ epsilon == 0 -> final_pred (weights m) epsilon b <> snd b)
    /\ (final_pred (weights m) epsilon b = snd b -> epsilon == 0).
Proof.
  intro Hin.
  destruct (test_run m test_loader epsilon) as (_ & _ & He).
  rewrite He in Hin. unfold collected in Hin.
  apply in_firstn, in_map_iff in Hin.
  destruct Hin as (b & Hb & Hin).
  apply filter_In in Hin. destruct Hin as (Hin & Hrec).
  unfold recordable, attacked, survives in Hrec.
  apply andb_true_iff in Hrec. destruct Hrec as (Hatt & Hsave).
  apply Z.eqb_eq in Hatt.
  assert (Hzero : final_pred (weights m) epsilon b = snd b -> epsilon == 0).
  { intro Hf. apply Z.eqb_eq in Hf. rewrite Hf in Hsave.
    cbn [negb orb] in Hsave. apply Qeq_bool_iff. exact Hsave. }
  exists b. repeat split; auto.
Qed.

End LoopFacts.

(** ** The attack function *)

Lemma fgsm_attack_eq (image : Tensor) (epsilon : Q)
      (data_grad : Tensor) :
  fgsm_attack image epsilon data_grad = image.
Proof. reflexivity. Qed.

(** C9: as written, [fgsm_attack] returns its first argument, whatever the
    epsilon and the gradient: no perturbation, no clamp. *)
Theorem fgsm_attack_identity (image : Tensor) (epsilon : Q)
        (data_grad : Tensor) :
  fgsm_attack image epsilon data_grad = image.
Proof. reflexivity. Qed.

(** C1: on the one-pixel scenario (sample 0.5, gradient -0.2, epsilon 0.1)
    the written contract gives 0.4 and [fgsm_attack] gives 0.5. *)
Theorem fgsm_attack_scenario :
  fgsm_attack [0.5] 0.1 [-0.2] = [0.5]
  /\ Contract.tensor_eq (Contract.perturb [0.5] 0.1 [-0.2]) [0.4]
  /\ ~ Contract.tensor_eq (fgsm_attack [0.5] 0.1 [-0.2]) [0.4].
Proof.
  split; [ reflexivity | split ].
  - repeat constructor.
  - intro Heq. inversion Heq as [ | x y l l' Hxy Hl ]; subst.
    vm_compute in Hxy. discriminate Hxy.
Qed.

Lemma clamp1_in_range (x : Q) : 0 <= x /\ x <= 1 -> Contract.clamp1 x = x.
Proof.
  intros [Hlo Hhi]. unfold Contract.clamp1.
  destruct (x ?= 0) eqn:H0.
  - destruct (x ?= 1) eqn:H1; try reflexivity.
    apply Qgt_alt in H1. apply Qle_not_lt in Hhi. contradiction.
  - apply Qlt_alt in H0. apply Qle_not_lt in Hlo. contradiction.
  - destruct (x ?= 1) eqn:H1; try reflexivity.
    apply Qgt_alt in H1. apply Qle_not_lt in Hhi. contradiction.
Qed.

Lemma clamp1_zero_step (x s : Q) :
  0 <= x /\ x <= 1 -> Contract.clamp1 (x + 0 * s) == x.
Proof.
  intros [Hlo Hhi].
  assert (E : x + 0 * s == x) by ring.
  unfold Contract.clamp1.
  rewrite (Qcompare_comp _ _ E 0 0 (Qeq_refl 0)).
  rewrite (Qcompare_comp _ _ E 1 1 (Qeq_refl 1)).
  destruct (x ?= 0) eqn:H0.
  - destruct (x ?= 1) eqn:H1; try exact E.
    apply Qgt_alt in H1. apply Qle_not_lt in Hhi. contradiction.
  - apply Qlt_alt in H0. apply Qle_not_lt in Hlo. contradiction.
  - destruct (x ?= 1) eqn:H1; try exact E.
    apply Qgt_alt in H1. apply Qle_not_lt in Hhi. contradiction.
Qed.

(** C5: for every sample of the data model (elements within [0,1]) and
    every gradient, [fgsm_attack] with epsilon 0 returns the clamp of the
    sample; and for a gradient of the sample's shape this is what the
    written perturbation, sample + 0 * sign(gradient) clamped, gives: at
    epsilon 0 the code and the contract agree. *)
Theorem fgsm_attack_zero_epsilon (sample gradient : Tensor) :
  Contract.valid_sample sample ->
  fgsm_attack sample 0 gradient = Contract.clamp sample
  /\ (length gradient = length sample ->
      Contract.tensor_eq (fgsm_attack sample 0 gradient)
                         (Contract.perturb sample 0 gradient)).
Proof.
  intro Hvalid. rewrite fgsm_attack_eq. split.
  - induction Hvalid as [ | x rest Hx Hrest IH]; [ reflexivity | ].
    cbn [Contract.clamp map]. rewrite (clamp1_in_range x Hx).
    f_equal. exact IH.
  - revert gradient.
    induction Hvalid as [ | x rest Hx Hrest IH]; intros gradient Hlen.
    + destruct gradient; [ constructor | discriminate Hlen ].
    + destruct gradient as [ | g gs]; [ discriminate Hlen | ].
      injection Hlen as Hlen.
      unfold Contract.perturb, Contract.elementwise_sign.
      cbn [map combine Contract.clamp].
      constructor.
      * symmetry. apply clamp1_zero_step. exact Hx.
      * apply (IH gs Hlen).
Qed.

(** C6: raising epsilon moves nothing.  [fgsm_attack] returns the same
    tensor for every epsilon; on the sample 0.5 with gradient -0.2 the
    written perturbation goes from 0.45 at epsilon 0.05 to 0.4 at epsilon
    0.1, further from 0.5 on the side of the sign, and [fgsm_attack] stays
    at 0.5 for both. *)
Theorem fgsm_attack_does_not_move :
  (forall (sample gradient : Tensor) (e1 e2 : Q),
      fgsm_attack sample e1 gradient = fgsm_attack sample e2 gradient)
  /\ fgsm_attack [0.5] 0.05 [-0.2] = [0.5]
  /\ fgsm_attack [0.5] 0.1 [-0.2] = [0.5]
  /\ ~ Contract.moves_further 0.5 0.5 0.5 (-0.2)
  /\ Contract.tensor_eq (Contract.perturb [0.5] 0.05 [-0.2]) [0.45]
  /\ Contract.tensor_eq (Contract.perturb [0.5] 0.1 [-0.2]) [0.4]
  /\ Contract.moves_further 0.5 0.45 0.4 (-0.2).
Proof.
  split; [ reflexivity | ].
  split; [ reflexivity | ].
  split; [ reflexivity | ].
  split.
  { intros [Hfar _]. vm_compute in Hfar. discriminate Hfar. }
  split; [ repeat constructor | ].
  split; [ repeat constructor | ].
  split; reflexivity.
Qed.


(** ** Concrete runs *)

Lemma test_accuracy_is_ratio_witness :
  Toy.loader <> []
  /\ option_map fst (fst (test Toy.net Toy.loader 0.1))
     = Some (inject_Z (Z.of_nat (length (filter (counted (weights Toy.net) 0.1)
                                                Toy.loader)))
             / inject_Z (Z.of_nat (length Toy.loader))).
Proof.
  split.
  - discriminate.
  - apply test_accuracy_is_ratio. discriminate.
Defined.

(** C3 as worded fails: with epsilon 0.1 the one pair of the loader is
    attacked, the attack fails, fewer than five triples are held, and no
    triple is saved. *)
Lemma collected_regardless_counterexample :
  adv_examples (snd (test Toy.net [([0.2], 0%Z)] 0.1)) = []
  /\ collected_regardless (weights Toy.net) 0.1 [([0.2], 0%Z)]
     = [(0%Z, 0%Z, [0.2])]
  /\ adv_examples (snd (test Toy.net [([0.2], 0%Z)] 0.1))
     <> collected_regardless (weights Toy.net) 0.1 [([0.2], 0%Z)].
Proof.
  split; [ reflexivity | split; [ reflexivity | ] ].
  vm_compute. discriminate.
Qed.

Lemma test_body_skips_misclassified_witness :
  Toy.toy_max_index (Toy.toy_forward 0.5 [0.9]) <> 0%Z
  /\ test_body 0.1 ([0.9], 0%Z) (initial Toy.net)
     = (tt, @Build_State Toy.toy Toy.net 0 [] [CallForward [0.9]]).
Proof.
  split.
  - vm_compute. discriminate.
  - apply (test_body_skips_misclassified 0.1 [0.9] 0%Z (initial Toy.net)).
    vm_compute. discriminate.
Defined.

Lemma fgsm_attack_zero_epsilon_witness :
  Contract.valid_sample [0.5; 0; 1]
  /\ fgsm_attack [0.5; 0; 1] 0 [-0.2; 3; 0] = Contract.clamp [0.5; 0; 1]
  /\ (length [-0.2; 3; 0] = length [0.5; 0; 1] ->
      Contract.tensor_eq (fgsm_attack [0.5; 0; 1] 0 [-0.2; 3; 0])
                         (Contract.perturb [0.5; 0; 1] 0 [-0.2; 3; 0])).
Proof.
  assert (Hvalid : Contract.valid_sample [0.5; 0; 1]).
  { repeat constructor; vm_compute; discriminate. }
  split.
  - exact Hvalid.
  - exact (fgsm_attack_zero_epsilon [0.5; 0; 1] [-0.2; 3; 0] Hvalid).
Defined.

Lemma test_saves_successes_unless_zero_witness :
  In (0%Z, 0%Z, [0.2]) (adv_examples (snd (test Toy.net Toy.loader 0)))
  /\ exists b : Batch,
       In b Toy.loader
       /\ (0%Z, 0%Z, [0.2]) = triple (weights Toy.net) 0 b
       /\ init_pred (weights Toy.net) b = snd b
       /\ (~ 0 == 0 -> final_pred (weights Toy.net) 0 b <> snd b)
       /\ (final_pred (weights Toy.net) 0 b = snd b -> 0 == 0).
Proof.
  assert (Hin : In (0%Z, 0%Z, [0.2])
                   (adv_examples (snd (test Toy.net Toy.loader 0)))).
  { vm_compute. left. reflexivity. }
  split.
  - exact Hin.
  - exact (test_saves_successes_unless_zero
             Toy.net Toy.loader 0 (0%Z, 0%Z, [0.2]) Hin).
Defined.

(** * Further properties of the evaluation loop *)

Section MoreLoopFacts.
Context `{Torch}.

(** One turn of the loop, on the gradient buffers and the call trace. *)
Lemma test_body_effects (epsilon : Q) (b : Batch) (st : State) :
  let w := weights (model st) in
  let st' := snd (test_body epsilon b st) in
  grads (model st') = batch_grads w (grads (model st)) b
  /\ calls st' = calls st ++ batch_calls w epsilon b.
Proof.
  destruct b as [data target], st as [[w g] c ex cl].
  unfold batch_grads, batch_calls, attacked, init_pred, perturbed.
  cbn [fst snd model weights grads calls]. cbv zeta.
  run_body.
  destruct (max_index (forward w data) =? target)%Z eqn:Hi;
    cbn [negb]; [ | split; reflexivity ].
  run_body.
  assert (Happ : forall (l : list Call) a1 a2 a3 a4 a5 a6,
             (((((l ++ [a1]) ++ [a2]) ++ [a3]) ++ [a4]) ++ [a5]) ++ [a6]
             = l ++ [a1; a2; a3; a4; a5; a6]).
  { intros. repeat rewrite <- app_assoc. reflexivity. }
  destruct (max_index (forward w _) =? target)%Z eqn:Hf; run_body.
  - destruct (Qeq_bool epsilon 0); cbn [andb];
      [ destruct (length ex <? 5)%nat | ];
      cbn [fst snd model grads calls]; rewrite Happ; split; reflexivity.
  - destruct (length ex <? 5)%nat;
      cbn [fst snd model grads calls]; rewrite Happ; split; reflexivity.
Qed.

(** The whole loop on the gradient buffers and the trace. *)
Lemma for_each_effects (epsilon : Q) (test_loader : list Batch) :
  forall st : State,
    let w := weights (model st) in
    let st' := snd (for_each epsilon test_loader st) in
    grads (model st') = fold_left (batch_grads w) test_loader (grads (model st))
    /\ calls st' = calls st ++ flat_map (batch_calls w epsilon) test_loader.
Proof.
  induction test_loader as [ | b rest IH]; intros st w st'.
  - subst st'. cbn. rewrite app_nil_r. split; reflexivity.
  - subst st'. rewrite for_each_cons.
    destruct (test_body_step epsilon b st) as (Hw & _ & _).
    destruct (test_body_effects epsilon b st) as (Hg & Hc).
    fold w in Hw, Hg, Hc.
    specialize (IH (snd (test_body epsilon b st))).
    cbv zeta in IH. rewrite Hw, Hg, Hc in IH.
    destruct IH as (IHg & IHc).
    split.
    + rewrite IHg. reflexivity.
    + rewrite IHc. cbn [flat_map]. rewrite app_assoc. reflexivity.
Qed.

(** X1: the forward passes, loss computations, [zero_grad]s, backward
    passes and calls of the attack made by a run are, batch after batch
    and in this order, one forward pass for a misclassified pair and the
    sequence forward, loss, [zero_grad], backward, attack, forward for an
    attacked one; the attack receives the data and the input gradient of
    that very pair, and the second forward pass the result of the
    attack. *)
Theorem test_call_trace
        (m : Model) (test_loader : list Batch) (epsilon : Q) :
  calls (snd (test m test_loader epsilon))
  = flat_map (batch_calls (weights m) epsilon) test_loader.
Proof.
  unfold test. cbn [snd].
  destruct (for_each_effects epsilon test_loader (initial m)) as (_ & Hc).
  exact Hc.
Qed.

Lemma batch_calls_counts (w : Params) (epsilon : Q) (l : list Batch) :
  let tr := flat_map (batch_calls w epsilon) l in
  let n := length (filter (attacked w) l) in
  length (filter is_forward tr) = (length l + n)%nat
  /\ length (filter is_backward tr) = n
  /\ length (filter is_attack tr) = n.
Proof.
  induction l as [ | b rest IH]; [ repeat split | ].
  cbv zeta in *. cbn [flat_map filter length].
  rewrite !filter_app, !length_app.
  destruct IH as (IHf & IHb & IHa). rewrite IHf, IHb, IHa.
  unfold batch_calls.
  destruct (attacked w b); cbn; repeat split; lia.
Qed.

(** X2: a run makes one forward pass per pair plus one more per attacked
    pair, and exactly one backward pass and one call of [fgsm_attack] per
    attacked pair. *)
Theorem test_pass_counts
        (m : Model) (test_loader : list Batch) (epsilon : Q) :
  let tr := calls (snd (test m test_loader epsilon)) in
  let n := length (filter (attacked (weights m)) test_loader) in
  length (filter is_forward tr) = (length test_loader + n)%nat
  /\ length (filter is_backward tr) = n
  /\ length (filter is_attack tr) = n.
Proof.
  cbv zeta.
  destruct (for_each_effects epsilon test_loader (initial m)) as (_ & Hc).
  unfold test. cbn [snd]. rewrite Hc. cbn [initial calls app model].
  apply batch_calls_counts.
Qed.

Lemma fold_batch_grads (w : Params) (l : list Batch) (g : Grads) :
  fold_left (batch_grads w) l g
  = match hd_error (rev (filter (attacked w) l)) with
    | Some b => grad_add grad_zero (param_grad w (fst b) (snd b))
    | None => g
    end.
Proof.
  revert g. induction l as [ | b rest IH]; intro g; [ reflexivity | ].
  cbn [fold_left filter]. rewrite IH. unfold batch_grads.
  destruct (attacked w b) eqn:Hb.
  - cbn [rev]. destruct (rev (filter (attacked w) rest)); reflexivity.
  - reflexivity.
Qed.

(** X3: gradients do not pile up over the loader: because of the
    [zero_grad] before every backward pass, the buffers at the end hold the
    gradient of the last attacked pair alone, and are untouched when no
    pair was attacked. *)
Theorem test_leaves_last_gradient
        (m : Model) (test_loader : list Batch) (epsilon : Q) :
  grads (model (snd (test m test_loader epsilon)))
  = match hd_error (rev (filter (attacked (weights m)) test_loader)) with
    | Some b => grad_add grad_zero
                  (param_grad (weights m) (fst b) (snd b))
    | None => grads m
    end.
Proof.
  unfold test. cbn [snd].
  destruct (for_each_effects epsilon test_loader (initial m)) as (Hg & _).
  rewrite Hg. cbn [initial model]. apply fold_batch_grads.
Qed.

Lemma ratio_in_unit_interval (c n : nat) :
  (c <= n)%nat -> (0 < n)%nat ->
  0 <= inject_Z (Z.of_nat c) / inject_Z (Z.of_nat n)
  /\ inject_Z (Z.of_nat c) / inject_Z (Z.of_nat n) <= 1.
Proof.
  intros Hcn Hn.
  assert (Hpos : 0 < inject_Z (Z.of_nat n)).
  { change 0 with (inject_Z 0). rewrite <- Zlt_Qlt. lia. }
  split.
  - apply Qle_shift_div_l; [ exact Hpos | ].
    rewrite Qmult_0_l. change 0 with (inject_Z 0). rewrite <- Zle_Qle. lia.
  - apply Qle_shift_div_r; [ exact Hpos | ].
    rewrite Qmult_1_l. rewrite <- Zle_Qle. lia.
Qed.

(** X4: on a non-empty loader [test] returns, and the accuracy it returns
    lies between 0 and 1. *)
Theorem test_accuracy_in_unit_interval
        (m : Model) (test_loader : list Batch) (epsilon : Q) :
  test_loader <> [] ->
  exists (acc : Q) (ex : list Example),
    fst (test m test_loader epsilon) = Some (acc, ex)
    /\ 0 <= acc /\ acc <= 1.
Proof.
  intro Hne.
  destruct (test_run m test_loader epsilon) as (_ & Hc & _).
  unfold test in *. cbn [fst snd] in *. rewrite Hc.
  destruct test_loader as [ | b rest]; [ contradiction | ].
  unfold final_acc. cbn [length].
  eexists. eexists. split; [ reflexivity | ].
  apply ratio_in_unit_interval; [ | lia ].
  apply (filter_length_le _ (b :: rest)).
Qed.

Lemma filter_length_permutation {A} (f : A -> bool) (l1 l2 : list A) :
  Permutation l1 l2 -> length (filter f l1) = length (filter f l2).
Proof.
  induction 1 as [ | x l l' _ IH | x y l | l l' l'' _ IH1 _ IH2 ].
  - reflexivity.
  - cbn [filter]. destruct (f x); cbn [length]; congruence.
  - cbn [filter]. destruct (f x), (f y); reflexivity.
  - congruence.
Qed.

(** X6: the accuracy does not depend on the order of the loader (which is
    built with [shuffle=True]): two loaders with the same pairs give the
    same accuracy. *)
Theorem test_accuracy_permutation
        (m : Model) (l1 l2 : list Batch) (epsilon : Q) :
  Permutation l1 l2 ->
  option_map fst (fst (test m l1 epsilon))
  = option_map fst (fst (test m l2 epsilon)).
Proof.
  intro Hperm.
  destruct (test_run m l1 epsilon) as (_ & Hc1 & _).
  destruct (test_run m l2 epsilon) as (_ & Hc2 & _).
  unfold test in *. cbn [fst snd] in *. rewrite Hc1, Hc2.
  rewrite (filter_length_permutation _ l1 l2 Hperm).
  rewrite (Permutation_length Hperm).
  destruct (final_acc _ _); reflexivity.
Qed.

Lemma counted_is_attacked (w : Params) (epsilon : Q) (l : list Batch) :
  filter (counted w epsilon) l = filter (attacked w) l.
Proof.
  apply filter_ext. intro b. unfold counted.
  destruct (attacked w b) eqn:Hb; [ | reflexivity ].
  rewrite (attacked_survives w epsilon b Hb). reflexivity.
Qed.

(** X7: with [fgsm_attack] as it stands the accuracy is the clean
    accuracy, the share of the pairs the model classifies correctly, and
    is the same for every epsilon. *)
Theorem test_accuracy_ignores_epsilon
        (m : Model) (test_loader : list Batch) (e1 e2 : Q) :
  option_map fst (fst (test m test_loader e1))
  = final_acc (length (filter (attacked (weights m)) test_loader))
              (length test_loader)
  /\ option_map fst (fst (test m test_loader e1))
     = option_map fst (fst (test m test_loader e2)).
Proof.
  assert (Hacc : forall e,
             option_map fst (fst (test m test_loader e))
             = final_acc (length (filter (attacked (weights m)) test_loader))
                         (length test_loader)).
  { intro e. destruct (test_run m test_loader e) as (_ & Hc & _).
    unfold test in *. cbn [fst snd] in *.
    rewrite Hc, counted_is_attacked.
    destruct (final_acc _ _); reflexivity. }
  split; [ apply Hacc | ]. rewrite (Hacc e1), (Hacc e2). reflexivity.
Qed.


End MoreLoopFacts.

(** * The grid of examples (code cell 18) *)

Lemma subplots_app (l1 l2 : list Plt) :
  subplots (l1 ++ l2) = subplots l1 ++ subplots l2.
Proof. apply flat_map_app. Qed.

Lemma labels_app (l1 l2 : list Plt) :
  forall cur, labels cur (l1 ++ l2)
              = labels cur l1 ++ labels (current cur l1) l2.
Proof.
  induction l1 as [ | c rest IH]; intro cur; [ reflexivity | ].
  destruct c; cbn [app labels current]; rewrite ?IH; reflexivity.
Qed.

Lemma current_app (l1 l2 : list Plt) :
  forall cur, current cur (l1 ++ l2) = current (current cur l1) l2.
Proof.
  induction l1 as [ | c rest IH]; intro cur; [ reflexivity | ].
  destruct c; cbn [app current]; rewrite ?IH; reflexivity.
Qed.

Lemma subplot_ok_succ (nrows ncols k : nat) :
  subplot_ok nrows ncols (S k) = (S k <=? nrows * ncols)%nat.
Proof.
  unfold subplot_ok.
  destruct (Nat.leb_spec (S k) (nrows * ncols)) as [Hfit | Hfit].
  - destruct (Nat.leb_spec 1 nrows); [ | nia ].
    destruct (Nat.leb_spec 1 ncols); [ | nia ].
    reflexivity.
  - rewrite andb_false_r. reflexivity.
Qed.

(** The inner loop on a row that fits in what is left of the grid: it
    does not raise, and numbers the cells of the row consecutively from
    [cnt + 1]. *)
Lemma plot_row_run (nrows : nat) (row0 : list Example)
      (others : list (list Example)) (eps : Q) (row : list Example) :
  forall (j : nat) (fig : Fig),
  (cnt fig + length row <= nrows * length row0)%nat ->
  exists fig' : Fig,
    plot_row nrows (row0 :: others) eps row j fig = (fig', None)
    /\ cnt fig' = (cnt fig + length row)%nat
    /\ subplots (drawn fig')
       = subplots (drawn fig)
         ++ map (fun k => (nrows, length row0, k))
                (seq (S (cnt fig)) (length row))
    /\ (forall c0,
         labels c0 (drawn fig')
         = labels c0 (drawn fig)
           ++ match row with
              | [] => []
              | _ :: _ => if (j =? 0)%nat then [(S (cnt fig), eps)] else []
              end)
    /\ (forall c0,
         current c0 (drawn fig')
         = match row with
           | [] => current c0 (drawn fig)
           | _ :: _ => (cnt fig + length row)%nat
           end).
Proof.
  induction row as [ | [[orig adv] ex] rest IH]; intros j fig Hfit.
  - exists fig. cbn. rewrite Nat.add_0_r, !app_nil_r.
    repeat split; intros; rewrite ?app_nil_r; reflexivity.
  - cbn [plot_row]. cbn [length] in Hfit.
    rewrite subplot_ok_succ.
    destruct (Nat.leb_spec (S (cnt fig)) (nrows * length row0)); [ | lia ].
    destruct (IH (S j)
                {| cnt := S (cnt fig);
                   drawn := drawn fig
                            ++ [Subplot nrows (length row0) (S (cnt fig));
                                Xticks; Yticks]
                            ++ (if (j =? 0)%nat then [Ylabel eps] else [])
                            ++ [Title orig adv; Imshow ex] |})
      as (fig' & Hrun & Hcnt & Hsub & Hlab & Hcur);
      [ cbn [cnt]; lia | ].
    cbn [cnt drawn] in Hcnt, Hsub, Hlab, Hcur.
    exists fig'. split; [ exact Hrun | ].
    split; [ cbn [length]; lia | ].
    split; [ | split ].
    + rewrite Hsub, subplots_app. cbn [length seq map].
      rewrite <- app_assoc. f_equal.
      destruct (j =? 0)%nat; reflexivity.
    + intro c0. rewrite Hlab, labels_app.
      assert (Hrest : match rest with
                      | [] => []
                      | _ :: _ =>
                          if (S j =? 0)%nat
                          then [(S (S (cnt fig)), eps)] else []
                      end = @nil (nat * Q)).
      { destruct rest; reflexivity. }
      rewrite Hrest, app_nil_r.
      destruct (j =? 0)%nat; reflexivity.
    + intro c0. rewrite Hcur.
      destruct rest as [ | e rest'].
      * rewrite current_app. cbn [length].
        destruct (j =? 0)%nat; cbn; lia.
      * cbn [length]. lia.
Qed.

(** The inner loop on a row that does not fit: [subplot] raises. *)
Lemma plot_row_raises (nrows : nat) (row0 : list Example)
      (others : list (list Example)) (eps : Q) (row : list Example) :
  forall (j : nat) (fig : Fig),
  (cnt fig <= nrows * length row0)%nat ->
  (nrows * length row0 < cnt fig + length row)%nat ->
  snd (plot_row nrows (row0 :: others) eps row j fig) = Some ValueError.
Proof.
  induction row as [ | [[orig adv] ex] rest IH]; intros j fig Hin Hout.
  - cbn [length] in Hout. lia.
  - cbn [plot_row]. cbn [length] in Hout.
    rewrite subplot_ok_succ.
    destruct (Nat.leb_spec (S (cnt fig)) (nrows * length row0));
      [ | reflexivity ].
    apply IH; cbn [cnt]; lia.
Qed.

Lemma skipn_nth_error {A} (l : list A) :
  forall (i : nat) (x : A),
    nth_error l i = Some x -> skipn i l = x :: skipn (S i) l.
Proof.
  induction l as [ | a rest IH]; intros [ | i] x Hx; try discriminate.
  - injection Hx as ->. reflexivity.
  - cbn [nth_error] in Hx. cbn [skipn]. rewrite (IH i x Hx). reflexivity.
Qed.

(** The outer loop, as long as [examples] has a row for every epsilon
    left and the rows fit in what is left of the grid. *)
Lemma plot_rows_run (nrows : nat) (examples : list (list Example))
      (epsilons : list Q) :
  forall (i : nat) (fig : Fig),
    (i + length epsilons <= length examples)%nat ->
    let rows := firstn (length epsilons) (skipn i examples) in
    (cnt fig + list_sum (map (@length Example) rows)
     <= nrows * length (hd [] examples))%nat ->
    exists fig' : Fig,
      plot_rows nrows examples epsilons i fig = (fig', None)
      /\ cnt fig' = (cnt fig + list_sum (map (@length Example) rows))%nat
      /\ subplots (drawn fig')
         = subplots (drawn fig)
           ++ map (fun k => (nrows, length (hd [] examples), k))
                  (seq (S (cnt fig)) (list_sum (map (@length Example) rows)))
      /\ (forall c0,
           labels c0 (drawn fig')
           = labels c0 (drawn fig) ++ label_slots (cnt fig) epsilons rows).
Proof.
  induction epsilons as [ | eps rest IH]; intros i fig Hlen rows Hfit.
  - exists fig. subst rows. cbn. rewrite Nat.add_0_r, app_nil_r.
    repeat split. intro c0. rewrite app_nil_r. reflexivity.
  - cbn [length] in Hlen.
    destruct (nth_error examples i) as [row | ] eqn:Hrow.
    2:{ apply nth_error_None in Hrow. lia. }
    assert (Hskip := skipn_nth_error examples i row Hrow).
    subst rows. cbn [length] in *. rewrite Hskip in *. cbn [firstn map] in *.
    change (list_sum (length row :: ?l)) with (length row + list_sum l)%nat
      in *.
    cbn [plot_rows]. rewrite Hrow.
    destruct examples as [ | row0 others];
      [ destruct i; discriminate Hrow | ].
    cbn [hd] in *.
    destruct (plot_row_run nrows row0 others eps row 0 fig)
      as (fig1 & Hrun1 & Hcnt1 & Hsub1 & Hlab1 & _); [ lia | ].
    rewrite Hrun1.
    destruct (IH (S i) fig1) as (fig' & Hrun & Hcnt & Hsub & Hlab);
      [ lia | cbn [hd]; lia | ].
    cbn [hd] in Hsub.
    exists fig'. split; [ exact Hrun | ].
    split; [ lia | ].
    split.
    + rewrite Hsub, Hsub1, Hcnt1.
      rewrite <- app_assoc. f_equal.
      rewrite seq_app, map_app. f_equal.
    + intro c0. rewrite Hlab, Hlab1, Hcnt1. cbn [label_slots Nat.eqb].
      rewrite <- app_assoc. reflexivity.
Qed.

(** The outcome of the outer loop, from an index within [examples] and a
    counter within the grid: [ValueError] if the rows still to draw
    overflow the grid, else [IndexError] if [examples] runs out of rows. *)
Lemma plot_rows_outcome (nrows : nat) (examples : list (list Example))
      (epsilons : list Q) :
  forall (i : nat) (fig : Fig),
    (i <= length examples)%nat ->
    (cnt fig <= nrows * length (hd [] examples))%nat ->
    snd (plot_rows nrows examples epsilons i fig)
    = if (nrows * length (hd [] examples)
          <? cnt fig
             + list_sum (map (@length Example)
                             (firstn (length epsilons) (skipn i examples))))%nat
      then Some ValueError
      else if (length examples <? i + length epsilons)%nat
           then Some IndexError else None.
Proof.
  induction epsilons as [ | eps rest IH]; intros i fig Hi Hin.
  - cbn [plot_rows snd length firstn map list_sum fold_right].
    rewrite !Nat.add_0_r.
    destruct (Nat.ltb_spec (nrows * length (hd [] examples)) (cnt fig));
      [ lia | ].
    destruct (Nat.ltb_spec (length examples) i); [ lia | reflexivity ].
  - cbn [plot_rows length].
    destruct (nth_error examples i) as [row | ] eqn:Hrow.
    + assert (Hlt : (i < length examples)%nat).
      { apply nth_error_Some. rewrite Hrow. discriminate. }
      rewrite (skipn_nth_error examples i row Hrow). cbn [firstn map].
      change (list_sum (length row :: ?l)) with (length row + list_sum l)%nat.
      destruct examples as [ | row0 others]; [ cbn in Hlt; lia | ].
      cbn [hd] in *.
      destruct (Nat.le_gt_cases (cnt fig + length row)
                                (nrows * length row0)) as [Hfit | Hover].
      * destruct (plot_row_run nrows row0 others eps row 0 fig Hfit)
          as (fig1 & Hrun1 & Hcnt1 & _).
        rewrite Hrun1, IH; [ | lia | cbn [hd]; lia ].
        cbn [hd]. rewrite Hcnt1.
        replace (S i + length rest)%nat with (i + S (length rest))%nat by lia.
        rewrite Nat.add_assoc. reflexivity.
      * pose proof (plot_row_raises nrows row0 others eps row 0 fig Hin Hover)
          as Hraise.
        destruct (plot_row nrows (row0 :: others) eps row 0 fig)
          as [fig1 [err | ]]; cbn [snd] in Hraise; [ | discriminate Hraise ].
        cbn [snd]. rewrite Hraise.
        destruct (Nat.ltb_spec (nrows * length row0)
                    (cnt fig + (length row
                                + list_sum
                                    (map (@length Example)
                                       (firstn (length rest)
                                          (skipn (S i) (row0 :: others)))))));
          [ reflexivity | lia ].
    + apply nth_error_None in Hrow. cbn [snd].
      rewrite (skipn_all2 examples Hrow).
      cbn [firstn map list_sum fold_right]. rewrite Nat.add_0_r.
      destruct (Nat.ltb_spec (nrows * length (hd [] examples)) (cnt fig));
        [ lia | ].
      destruct (Nat.ltb_spec (length examples) (i + S (length rest)));
        [ reflexivity | lia ].
Qed.

(** X9: how the cell ends.  It raises [ValueError] (from [plt.subplot])
    when the rows it is to draw hold more examples than the grid of
    [len(epsilons)] by [len(examples[0])] has cells; otherwise it raises
    [IndexError] (from [examples[i]]) when [examples] has fewer rows than
    [epsilons] has entries, as in the notebook as it stands, where
    [examples] is empty; otherwise it runs to the end. *)
Theorem plot_examples_outcome
        (epsilons : list Q) (examples : list (list Example)) :
  snd (plot_examples epsilons examples)
  = if (length epsilons * length (hd [] examples)
        <? list_sum (map (@length Example)
                         (firstn (length epsilons) examples)))%nat
    then Some ValueError
    else if (length examples <? length epsilons)%nat
         then Some IndexError else None.
Proof.
  unfold plot_examples.
  pose proof (plot_rows_outcome (length epsilons) examples epsilons 0
                {| cnt := 0; drawn := [Figure] |} (Nat.le_0_l _)
                (Nat.le_0_l _)) as Hout.
  cbn [cnt skipn Nat.add] in Hout.
  destruct (plot_rows (length epsilons) examples epsilons 0 _)
    as [fig' [err | ]]; cbn [snd] in *; exact Hout.
Qed.

(** The run of the whole cell when [examples] has a row for every epsilon
    and the examples to draw fit in the grid. *)
Lemma plot_examples_run (epsilons : list Q) (examples : list (list Example)) :
  (length epsilons <= length examples)%nat ->
  let rows := firstn (length epsilons) examples in
  let total := list_sum (map (@length Example) rows) in
  (total <= length epsilons * length (hd [] examples))%nat ->
  snd (plot_examples epsilons examples) = None
  /\ cnt (fst (plot_examples epsilons examples)) = total
  /\ subplots (drawn (fst (plot_examples epsilons examples)))
     = map (fun k => (length epsilons, length (hd [] examples), k))
           (seq 1 total)
  /\ labels 0 (drawn (fst (plot_examples epsilons examples)))
     = label_slots 0 epsilons rows.
Proof.
  intros Hlen rows total Hfit. unfold plot_examples.
  destruct (plot_rows_run (length epsilons) examples epsilons 0
              {| cnt := 0; drawn := [Figure] |} Hlen)
    as (fig' & Hrun & Hcnt & Hsub & Hlab); [ exact Hfit | ].
  cbn [skipn cnt drawn] in Hcnt, Hsub, Hlab. fold rows in Hcnt, Hsub, Hlab.
  fold total in Hcnt, Hsub.
  rewrite Hrun. cbn [fst snd cnt drawn].
  split; [ reflexivity | split; [ exact Hcnt | split ] ].
  - rewrite subplots_app, Hsub. cbn [subplots flat_map app].
    rewrite app_nil_r. reflexivity.
  - rewrite labels_app, Hlab. cbn [labels app]. rewrite app_nil_r.
    reflexivity.
Qed.

(** X10: when [examples] has a row for every epsilon and the examples of
    those rows are no more than the cells of the grid, the cell does not
    raise, and it numbers the cells 1, 2, 3, ... in the order drawn,
    whatever the lengths of the rows, in a grid of [len(epsilons)] rows
    and [len(examples[0])] columns: a row shorter than the first one
    shifts all the rows after it. *)
Theorem plot_examples_numbers_cells
        (epsilons : list Q) (examples : list (list Example)) :
  (length epsilons <= length examples)%nat ->
  (list_sum (map (@length Example) (firstn (length epsilons) examples))
   <= length epsilons * length (hd [] examples))%nat ->
  snd (plot_examples epsilons examples) = None
  /\ subplots (drawn (fst (plot_examples epsilons examples)))
     = map (fun k => (length epsilons, length (hd [] examples), k))
           (seq 1 (list_sum (map (@length Example)
                                 (firstn (length epsilons) examples)))).
Proof.
  intros Hlen Hfit.
  destruct (plot_examples_run epsilons examples Hlen Hfit)
    as (He & _ & Hs & _).
  split; assumption.
Qed.

Lemma list_sum_bounded (c : nat) (rows : list (list Example)) :
  Forall (fun row => (length row <= c)%nat) rows ->
  (list_sum (map (@length Example) rows) <= length rows * c)%nat.
Proof.
  induction 1 as [ | row rest Hrow _ IH]; [ reflexivity | ].
  cbn [map length].
  change (list_sum (length row :: ?l)) with (length row + list_sum l)%nat.
  lia.
Qed.

(** Rows no longer than the first one fit in the grid. *)
Lemma short_rows_fit (epsilons : list Q) (examples : list (list Example)) :
  (length epsilons <= length examples)%nat ->
  Forall (fun row => (length row <= length (hd [] examples))%nat)
         (firstn (length epsilons) examples) ->
  (list_sum (map (@length Example) (firstn (length epsilons) examples))
   <= length epsilons * length (hd [] examples))%nat.
Proof.
  intros Hlen Hrows.
  pose proof (list_sum_bounded _ _ Hrows) as Hsum.
  rewrite (firstn_length_le _ Hlen) in Hsum. exact Hsum.
Qed.

(** X11: if none of the rows drawn is longer than [examples[0]], every
    [subplot] index lies within the grid (between 1 and rows times
    columns). *)
Theorem plot_examples_within_grid
        (epsilons : list Q) (examples : list (list Example)) :
  (length epsilons <= length examples)%nat ->
  Forall (fun row => (length row <= length (hd [] examples))%nat)
         (firstn (length epsilons) examples) ->
  Forall (fun s => match s with
                   | (r, c, k) => (1 <= k <= r * c)%nat
                   end)
         (subplots (drawn (fst (plot_examples epsilons examples)))).
Proof.
  intros Hlen Hrows.
  pose proof (short_rows_fit epsilons examples Hlen Hrows) as Hfit.
  destruct (plot_examples_run epsilons examples Hlen Hfit)
    as (_ & _ & Hs & _).
  rewrite Hs. apply Forall_map, Forall_forall.
  intros k Hk. apply in_seq in Hk. lia.
Qed.

Lemma label_slots_uniform (c : nat) (epsilons : list Q) :
  (0 < c)%nat ->
  forall (rows : list (list Example)) (start i : nat) (e : Q),
    Forall (fun row => length row = c) rows ->
    (length epsilons <= length rows)%nat ->
    nth_error epsilons i = Some e ->
    nth_error (label_slots start epsilons rows) i
    = Some ((start + i * c + 1)%nat, e).
Proof.
  intro Hc.
  induction epsilons as [ | eps rest IH]; intros rows start i e Hrows Hlen He.
  - destruct i; discriminate He.
  - destruct rows as [ | row rows']; [ cbn in Hlen; lia | ].
    inversion Hrows as [ | r rs Hrow Hrows' ]; subst r rs.
    cbn [label_slots].
    destruct row as [ | x row']; [ cbn in Hrow; lia | ].
    cbn [app]. destruct i as [ | i].
    + injection He as ->. cbn [nth_error]. do 2 f_equal. lia.
    + cbn [nth_error] in *.
      rewrite (IH rows' _ i e Hrows'); [ | cbn [length] in Hlen; lia | exact He ].
      do 2 f_equal. rewrite Hrow. lia.
Qed.

(** Rows all as long as each other are no longer than the first. *)
Lemma uniform_rows_short (c : nat) (epsilons : list Q)
      (examples : list (list Example)) :
  (length epsilons <= length examples)%nat ->
  Forall (fun row => length row = c) (firstn (length epsilons) examples) ->
  Forall (fun row => (length row <= length (hd [] examples))%nat)
         (firstn (length epsilons) examples).
Proof.
  intros Hlen Hrows.
  destruct epsilons as [ | eps rest]; [ constructor | ].
  destruct examples as [ | row0 others]; [ cbn in Hlen; lia | ].
  cbn [length firstn hd] in *.
  inversion Hrows as [ | r rs Hrow0 Hothers ]; subst r rs.
  constructor; [ lia | ].
  apply (Forall_impl _ (P := fun row => length row = c)); [ | exact Hothers ].
  intros row Hrow. lia.
Qed.

(** X12: if every epsilon has the same number [c > 0] of examples, the
    label of [epsilons[i]] is put on subplot [i*c + 1], the first cell of
    row [i] of the grid. *)
Theorem plot_examples_labels_aligned
        (epsilons : list Q) (examples : list (list Example))
        (c i : nat) (e : Q) :
  (0 < c)%nat ->
  (length epsilons <= length examples)%nat ->
  Forall (fun row => length row = c) (firstn (length epsilons) examples) ->
  nth_error epsilons i = Some e ->
  nth_error (labels 0 (drawn (fst (plot_examples epsilons examples)))) i
  = Some ((i * c + 1)%nat, e).
Proof.
  intros Hc Hlen Hrows He.
  pose proof (short_rows_fit epsilons examples Hlen
                (uniform_rows_short c epsilons examples Hlen Hrows)) as Hfit.
  destruct (plot_examples_run epsilons examples Hlen Hfit)
    as (_ & _ & _ & Hl).
  rewrite Hl.
  rewrite (label_slots_uniform c epsilons Hc _ 0 i e Hrows);
    [ reflexivity | | exact He ].
  rewrite (firstn_length_le _ Hlen). lia.
Qed.

(** * The shapes through the network (code cell 10) *)

(** Linear arithmetic with division by a constant. *)
Ltac div_lia := zify; Z.to_euclidean_division_equations; lia.

Section NetShapes.
Local Open Scope nat_scope.

Lemma Conv2d_some (i o k : nat) (x y : Net.Shape4) :
  Net.Conv2d i o k x = Some y
  <-> Net.channels x = i /\ (k <= Net.height x)%nat
      /\ (k <= Net.width x)%nat
      /\ y = {| Net.batch := Net.batch x; Net.channels := o;
                Net.height := Net.height x - k + 1;
                Net.width := Net.width x - k + 1 |}.
Proof.
  unfold Net.Conv2d.
  destruct (Nat.eqb_spec (Net.channels x) i) as [Hc | Hc];
    destruct (Nat.leb_spec k (Net.height x)) as [Hh | Hh];
    destruct (Nat.leb_spec k (Net.width x)) as [Hw | Hw];
    cbn [andb]; split;
    try discriminate;
    try (intros (? & ? & ? & ?); lia).
  - intro Hy. injection Hy as <-. repeat split; assumption.
  - intros (_ & _ & _ & ->). reflexivity.
Qed.

Lemma max_pool2d_some (k : nat) (x y : Net.Shape4) :
  Net.max_pool2d x k = Some y
  <-> (k <= Net.height x)%nat /\ (k <= Net.width x)%nat
      /\ y = {| Net.batch := Net.batch x; Net.channels := Net.channels x;
                Net.height := Net.height x / k;
                Net.width := Net.width x / k |}.
Proof.
  unfold Net.max_pool2d.
  destruct (Nat.leb_spec k (Net.height x)) as [Hh | Hh];
    destruct (Nat.leb_spec k (Net.width x)) as [Hw | Hw];
    cbn [andb]; split;
    try discriminate;
    try (intros (? & ? & ?); lia).
  - intro Hy. injection Hy as <-. repeat split; assumption.
  - intros (_ & _ & ->). reflexivity.
Qed.

Lemma pooled_eq (n : nat) :
  ((n - 5 + 1) / 2 - 5 + 1) / 2 = Net.pooled n.
Proof. unfold Net.pooled. div_lia. Qed.

(** The convolution and pooling stages of [forward] go through exactly for
    one input channel and a height and a width of at least 16. *)
Lemma features_some (x y : Net.Shape4) :
  Net.and_then (Net.conv1 x) (fun x1 =>
    Net.and_then (Net.max_pool2d x1 2) (fun x2 =>
      Net.and_then (Net.conv2 x2) (fun x3 => Net.max_pool2d x3 2)))
  = Some y
  <-> Net.channels x = 1%nat /\ (16 <= Net.height x)%nat
      /\ (16 <= Net.width x)%nat
      /\ y = {| Net.batch := Net.batch x; Net.channels := 20;
                Net.height := Net.pooled (Net.height x);
                Net.width := Net.pooled (Net.width x) |}.
Proof.
  destruct x as [b c h w]. cbn [Net.batch Net.channels Net.height Net.width].
  rewrite <- (pooled_eq h), <- (pooled_eq w).
  unfold Net.conv1, Net.conv2. split.
  - intro Hy.
    destruct (Net.Conv2d 1 10 5 _) as [x1 | ] eqn:E1; [ | discriminate ].
    cbn [Net.and_then] in Hy.
    destruct (Net.max_pool2d x1 2) as [x2 | ] eqn:E2; [ | discriminate ].
    cbn [Net.and_then] in Hy.
    destruct (Net.Conv2d 10 20 5 x2) as [x3 | ] eqn:E3; [ | discriminate ].
    cbn [Net.and_then] in Hy.
    apply Conv2d_some in E1. destruct E1 as (Hc & Hh1 & Hw1 & ->).
    apply max_pool2d_some in E2. destruct E2 as (Hh2 & Hw2 & ->).
    apply Conv2d_some in E3. destruct E3 as (_ & Hh3 & Hw3 & ->).
    apply max_pool2d_some in Hy. destruct Hy as (Hh4 & Hw4 & ->).
    cbn [Net.batch Net.channels Net.height Net.width] in *.
    repeat split; try assumption; div_lia.
  - intros (-> & Hh & Hw & ->).
    assert (E1 : Net.Conv2d 1 10 5
                   {| Net.batch := b; Net.channels := 1;
                      Net.height := h; Net.width := w |}
                 = Some {| Net.batch := b; Net.channels := 10;
                           Net.height := h - 5 + 1;
                           Net.width := w - 5 + 1 |}).
    { apply Conv2d_some. cbn. repeat split; lia. }
    rewrite E1. cbn [Net.and_then].
    assert (E2 : Net.max_pool2d
                   {| Net.batch := b; Net.channels := 10;
                      Net.height := h - 5 + 1; Net.width := w - 5 + 1 |} 2
                 = Some {| Net.batch := b; Net.channels := 10;
                           Net.height := (h - 5 + 1) / 2;
                           Net.width := (w - 5 + 1) / 2 |}).
    { apply max_pool2d_some.
      cbn [Net.batch Net.channels Net.height Net.width].
      repeat split; lia. }
    rewrite E2. cbn [Net.and_then].
    assert (E3 : Net.Conv2d 10 20 5
                   {| Net.batch := b; Net.channels := 10;
                      Net.height := (h - 5 + 1) / 2;
                      Net.width := (w - 5 + 1) / 2 |}
                 = Some {| Net.batch := b; Net.channels := 20;
                           Net.height := (h - 5 + 1) / 2 - 5 + 1;
                           Net.width := (w - 5 + 1) / 2 - 5 + 1 |}).
    { apply Conv2d_some.
      cbn [Net.batch Net.channels Net.height Net.width].
      repeat split; div_lia. }
    rewrite E3. cbn [Net.and_then].
    apply max_pool2d_some.
    cbn [Net.batch Net.channels Net.height Net.width].
    repeat split; div_lia.
Qed.

Lemma forward_split (x : Net.Shape4) :
  Net.forward x
  = Net.and_then
      (Net.and_then (Net.conv1 x) (fun x1 =>
         Net.and_then (Net.max_pool2d x1 2) (fun x2 =>
           Net.and_then (Net.conv2 x2) (fun x3 => Net.max_pool2d x3 2))))
      (fun x4 =>
         Net.and_then (Net.view x4 320) (fun x5 =>
           Net.and_then (Net.fc1 x5) (fun x6 =>
             Net.and_then (Net.fc2 x6) (fun x7 => Some x7)))).
Proof.
  unfold Net.forward.
  destruct (Net.conv1 x) as [x1 | ]; [ cbn [Net.and_then] | reflexivity ].
  destruct (Net.max_pool2d x1 2) as [x2 | ];
    [ cbn [Net.and_then] | reflexivity ].
  destruct (Net.conv2 x2) as [x3 | ]; [ cbn [Net.and_then] | reflexivity ].
  reflexivity.
Qed.

(** The flattening and the two linear layers. *)
Lemma classifier_some (x : Net.Shape4) (y : Net.Shape2) :
  Net.and_then (Net.view x 320) (fun x5 =>
    Net.and_then (Net.fc1 x5) (fun x6 =>
      Net.and_then (Net.fc2 x6) (fun x7 => Some x7)))
  = Some y
  <-> Net.batch x * Net.channels x * Net.height x * Net.width x
      = 320 * Net.rows y
      /\ Net.cols y = 10.
Proof.
  unfold Net.view.
  set (numel := Net.batch x * Net.channels x * Net.height x * Net.width x).
  change (320 =? 0) with false. cbv iota.
  destruct (Nat.eqb_spec (numel mod 320) 0) as [Hm | Hm].
  - cbn [Net.and_then]. unfold Net.fc1, Net.fc2, Net.Linear.
    cbn [Net.rows Net.cols]. rewrite Nat.eqb_refl.
    cbn [Net.and_then Net.rows Net.cols]. rewrite Nat.eqb_refl.
    cbn [Net.and_then].
    apply Nat.Div0.div_exact in Hm.
    split.
    + intro Hy. injection Hy as <-. cbn [Net.rows Net.cols].
      split; [ exact Hm | reflexivity ].
    + intros (Hn & Hcols). destruct y as [r c].
      cbn [Net.rows Net.cols] in *. subst c. f_equal. f_equal.
      rewrite Hn, Nat.mul_comm. apply Nat.div_mul. discriminate.
  - cbn [Net.and_then]. split; [ discriminate | ].
    intros (Hn & _). exfalso. apply Hm.
    rewrite Hn, Nat.mul_comm. apply Nat.Div0.mod_mul.
Qed.

(** X13: [forward] accepts a batch exactly when it has one channel, a
    height and a width of at least 16, and a number of features (20 per
    cell of the pooled map) that is a multiple of 320; the result has 10
    columns and as many rows as that multiple, which is the batch size
    only when the pooled map has 16 cells (an empty batch gives no
    row). *)
Theorem Net_forward_shape (x : Net.Shape4) (y : Net.Shape2) :
  Net.forward x = Some y
  <-> Net.channels x = 1 /\ 16 <= Net.height x /\ 16 <= Net.width x
      /\ Net.cols y = 10
      /\ Net.rows y * 16
         = Net.batch x * (Net.pooled (Net.height x)
                          * Net.pooled (Net.width x)).
Proof.
  rewrite forward_split. split.
  - intro Hy.
    destruct (Net.and_then (Net.conv1 x) _) as [x4 | ] eqn:E4;
      [ | discriminate ].
    cbn [Net.and_then] in Hy.
    apply features_some in E4. destruct E4 as (Hc & Hh & Hw & ->).
    apply classifier_some in Hy.
    cbn [Net.batch Net.channels Net.height Net.width] in Hy.
    destruct Hy as (Hn & Hcols).
    repeat split; try assumption; nia.
  - intros (Hc & Hh & Hw & Hcols & Hrows).
    assert (E4 := proj2 (features_some x _)
                    (conj Hc (conj Hh (conj Hw eq_refl)))).
    rewrite E4. cbn [Net.and_then].
    apply classifier_some.
    cbn [Net.batch Net.channels Net.height Net.width].
    split; [ nia | assumption ].
Qed.

(** X14: a batch of [b >= 1] one-channel images of height and width
    between 28 and 31 (28 for MNIST) comes out as [b] rows of 10 class
    scores: the 320 of [view] and [fc1] is the 20 x 4 x 4 of the pooled
    map. *)
Theorem Net_forward_mnist (b h w : nat) :
  1 <= b -> 28 <= h <= 31 -> 28 <= w <= 31 ->
  Net.forward {| Net.batch := b; Net.channels := 1;
                 Net.height := h; Net.width := w |}
  = Some {| Net.rows := b; Net.cols := 10 |}.
Proof.
  intros Hb Hh Hw. rewrite forward_split.
  assert (Hph : Net.pooled h = 4) by (unfold Net.pooled; div_lia).
  assert (Hpw : Net.pooled w = 4) by (unfold Net.pooled; div_lia).
  rewrite (proj2 (features_some
                    {| Net.batch := b; Net.channels := 1;
                       Net.height := h; Net.width := w |}
                    {| Net.batch := b; Net.channels := 20;
                       Net.height := 4; Net.width := 4 |})).
  - cbn [Net.and_then]. apply classifier_some.
    cbn [Net.batch Net.channels Net.height Net.width Net.rows Net.cols].
    split; [ lia | reflexivity ].
  - cbn [Net.batch Net.channels Net.height Net.width].
    rewrite Hph, Hpw. repeat split; lia.
Qed.

End NetShapes.

(** * Concrete runs of the further properties *)

Example toy_grid_ragged :
  subplots (drawn (fst (plot_examples ToyGrid.epsilons ToyGrid.ragged)))
  = [(2, 2, 1); (2, 2, 2); (2, 2, 3)]%nat
  /\ labels 0 (drawn (fst (plot_examples ToyGrid.epsilons ToyGrid.ragged)))
     = [(1%nat, 0); (3%nat, 0.05)].
Proof. split; reflexivity. Qed.

Example toy_grid_empty_first_row :
  snd (plot_examples [0; 0.05; 0.1] [[]; [(0%Z, 1%Z, [0.25])]])
  = Some ValueError.
Proof. reflexivity. Qed.

Example toy_grid_long_later_row :
  snd (plot_examples [0; 0.05]
         [[(0%Z, 0%Z, [0.2])]; [(0%Z, 1%Z, [0.25]); (1%Z, 0%Z, [0.65])]])
  = Some ValueError.
Proof. reflexivity. Qed.

Example toy_grid_no_examples :
  snd (plot_examples [0; 0.05; 0.1] []) = Some IndexError.
Proof. reflexivity. Qed.

Example toy_net_empty_batch :
  Net.forward {| Net.batch := 0; Net.channels := 1;
                 Net.height := 28; Net.width := 28 |}
  = Some {| Net.rows := 0; Net.cols := 10 |}.
Proof. reflexivity. Qed.

Lemma test_accuracy_in_unit_interval_witness :
  Toy.loader <> []
  /\ exists (acc : Q) (ex : list Example),
       fst (test Toy.net Toy.loader 0.1) = Some (acc, ex)
       /\ 0 <= acc /\ acc <= 1.
Proof.
  split.
  - discriminate.
  - apply (test_accuracy_in_unit_interval Toy.net Toy.loader 0.1).
    discriminate.
Defined.

Lemma test_accuracy_permutation_witness :
  Permutation Toy.loader (rev Toy.loader)
  /\ option_map fst (fst (test Toy.net Toy.loader 0.1))
     = option_map fst (fst (test Toy.net (rev Toy.loader) 0.1)).
Proof.
  split.
  - apply Permutation_rev.
  - apply (test_accuracy_permutation Toy.net Toy.loader (rev Toy.loader) 0.1).
    apply Permutation_rev.
Defined.

Lemma plot_examples_numbers_cells_witness :
  (length ToyGrid.epsilons <= length ToyGrid.ragged)%nat
  /\ (list_sum (map (@length Example)
                    (firstn (length ToyGrid.epsilons) ToyGrid.ragged))
      <= length ToyGrid.epsilons * length (hd [] ToyGrid.ragged))%nat
  /\ snd (plot_examples ToyGrid.epsilons ToyGrid.ragged) = None
  /\ subplots (drawn (fst (plot_examples ToyGrid.epsilons ToyGrid.ragged)))
     = map (fun k => (length ToyGrid.epsilons,
                      length (hd [] ToyGrid.ragged), k))
           (seq 1 (list_sum (map (@length Example)
                                 (firstn (length ToyGrid.epsilons)
                                         ToyGrid.ragged)))).
Proof.
  assert (Hlen : (length ToyGrid.epsilons <= length ToyGrid.ragged)%nat)
    by (cbn; lia).
  assert (Hfit : (list_sum (map (@length Example)
                               (firstn (length ToyGrid.epsilons)
                                       ToyGrid.ragged))
                  <= length ToyGrid.epsilons
                     * length (hd [] ToyGrid.ragged))%nat)
    by (cbn; lia).
  split; [ exact Hlen | split; [ exact Hfit | ] ].
  exact (plot_examples_numbers_cells ToyGrid.epsilons ToyGrid.ragged
           Hlen Hfit).
Defined.

Lemma plot_examples_within_grid_witness :
  (length ToyGrid.epsilons <= length ToyGrid.ragged)%nat
  /\ Forall (fun row => (length row <= length (hd [] ToyGrid.ragged))%nat)
            (firstn (length ToyGrid.epsilons) ToyGrid.ragged)
  /\ Forall (fun s => match s with
                      | (r, c, k) => (1 <= k <= r * c)%nat
                      end)
            (subplots
               (drawn (fst (plot_examples ToyGrid.epsilons ToyGrid.ragged)))).
Proof.
  assert (Hlen : (length ToyGrid.epsilons <= length ToyGrid.ragged)%nat)
    by (cbn; lia).
  assert (Hrows :
            Forall (fun row =>
                      (length row <= length (hd [] ToyGrid.ragged))%nat)
                   (firstn (length ToyGrid.epsilons) ToyGrid.ragged)).
  { cbn. repeat constructor. }
  split; [ exact Hlen | split; [ exact Hrows | ] ].
  exact (plot_examples_within_grid ToyGrid.epsilons ToyGrid.ragged
           Hlen Hrows).
Defined.

Lemma plot_examples_labels_aligned_witness :
  (0 < 2)%nat
  /\ (length ToyGrid.epsilons <= length ToyGrid.full)%nat
  /\ Forall (fun row => length row = 2%nat)
            (firstn (length ToyGrid.epsilons) ToyGrid.full)
  /\ nth_error ToyGrid.epsilons 1 = Some 0.05
  /\ nth_error
       (labels 0 (drawn (fst (plot_examples ToyGrid.epsilons ToyGrid.full))))
       1
     = Some ((1 * 2 + 1)%nat, 0.05).
Proof.
  assert (Hc : (0 < 2)%nat) by lia.
  assert (Hlen : (length ToyGrid.epsilons <= length ToyGrid.full)%nat)
    by (cbn; lia).
  assert (Hrows : Forall (fun row => length row = 2%nat)
                         (firstn (length ToyGrid.epsilons) ToyGrid.full)).
  { cbn. repeat constructor. }
  assert (He : nth_error ToyGrid.epsilons 1 = Some 0.05) by reflexivity.
  split; [ exact Hc | split; [ exact Hlen | split; [ exact Hrows | ] ] ].
  split; [ exact He | ].
  exact (plot_examples_labels_aligned ToyGrid.epsilons ToyGrid.full 2 1 0.05
           Hc Hlen Hrows He).
Defined.

Lemma Net_forward_mnist_witness :
  (1 <= 1)%nat /\ (28 <= 28 <= 31)%nat /\ (28 <= 28 <= 31)%nat
  /\ Net.forward {| Net.batch := 1; Net.channels := 1;
                    Net.height := 28; Net.width := 28 |}
     = Some {| Net.rows := 1; Net.cols := 10 |}.
Proof.
  assert (Hb : (1 <= 1)%nat) by lia.
  assert (Hh : (28 <= 28 <= 31)%nat) by lia.
  split; [ exact Hb | split; [ exact Hh | split; [ exact Hh | ] ] ].
  exact (Net_forward_mnist 1 28 28 Hb Hh Hh).
Defined.
